(** * Vindex interfaces and the vindex registry

    A model of [go/vt/vtgate/planbuilder/vindex.go]: the interfaces a
    vindex may implement, the type test behind [IsUnique], and the
    package-level [registry] with [Register] and [CreateVindex]. *)

From Stdlib Require Import Ascii String.
From stdpp Require Import gmap strings list fin_maps.

Local Open Scope string_scope.

(** ** Go types and method signatures *)

(** The types that occur in the method signatures of the file.  Named
    types ([VCursor], [sqltypes.Result]) are kept by name. *)
Inductive GoType :=
| TBool
| TInt
| TString
| TByte
| TError
| TEmptyInterface
| TNamed (name : string)
| TPointer (elem : GoType)
| TSlice (elem : GoType)
| TMap (key elem : GoType).

#[global] Instance GoType_eq_dec : EqDecision GoType.
Proof. solve_decision. Defined.

(** A method signature: parameter types and result types, in order.
    Parameter names are not part of a Go signature. *)
Record Signature := mkSig { sig_params : list GoType; sig_results : list GoType }.

#[global] Instance Signature_eq_dec : EqDecision Signature.
Proof. solve_decision. Defined.

(** An interface type lists methods and may embed other interfaces
    ([Functional] embeds [Unique]). *)
Inductive InterfaceType :=
| Interface (elems : list InterfaceElem)
with InterfaceElem :=
| Method (name : string) (sig : Signature)
| Embedded (iface : InterfaceType).

(** The method set of an interface: its own methods and those of the
    interfaces it embeds. *)
Fixpoint iface_methods (I : InterfaceType) : list (string * Signature) :=
  match I with
  | Interface elems =>
      (fix go (es : list InterfaceElem) : list (string * Signature) :=
         match es with
         | [] => []
         | Method name sig :: es' => (name, sig) :: go es'
         | Embedded J :: es' => (iface_methods J ++ go es')%list
         end) elems
  end.

(** A concrete (dynamic) type.  Go allows one method per name in a
    method set, hence a finite map from method names to signatures. *)
Record ConcreteType := mkType {
  type_name : string;
  method_set : gmap string Signature
}.

(** [T] implements [I] when every method of [I] is in the method set of
    [T] with the identical signature. *)
Definition implements (T : ConcreteType) (I : InterfaceType) : bool :=
  forallb (fun m => bool_decide (method_set T !! m.1 = Some m.2)) (iface_methods I).

(** ** The interfaces of vindex.go *)

Definition VCursor_t : GoType := TNamed "VCursor".
Definition bytes_t : GoType := TSlice TByte.

(** [type VCursor interface] with the single method [Execute], from a
    query string and a [map[string]interface{}] of bind variables to a
    pointer to [sqltypes.Result] and an [error]. *)
Definition VCursor : InterfaceType :=
  Interface [Method "Execute"
               (mkSig [TString; TMap TString TEmptyInterface]
                      [TPointer (TNamed "sqltypes.Result"); TError])].

(** [type Vindex interface { String() string; Cost() int;
    Verify(cursor VCursor, id interface{}, ks []byte) (bool, error) }] *)
Definition Vindex_iface : InterfaceType :=
  Interface [Method "String" (mkSig [] [TString]);
             Method "Cost" (mkSig [] [TInt]);
             Method "Verify" (mkSig [VCursor_t; TEmptyInterface; bytes_t] [TBool; TError])].

(** [Map(cursor VCursor, ids []interface{}) ([][]byte, error)] *)
Definition Unique_Map : Signature :=
  mkSig [VCursor_t; TSlice TEmptyInterface] [TSlice bytes_t; TError].

(** [Map(cursor VCursor, ids []interface{}) ([][][]byte, error)] *)
Definition NonUnique_Map : Signature :=
  mkSig [VCursor_t; TSlice TEmptyInterface] [TSlice (TSlice bytes_t); TError].

Definition Unique : InterfaceType := Interface [Method "Map" Unique_Map].

Definition NonUnique : InterfaceType := Interface [Method "Map" NonUnique_Map].

(** [ReverseMap(cursor VCursor, ks []byte) (interface{}, error)] *)
Definition Reversible : InterfaceType :=
  Interface [Method "ReverseMap" (mkSig [VCursor_t; bytes_t] [TEmptyInterface; TError])].

(** [type Functional interface { Unique }] *)
Definition Functional : InterfaceType := Interface [Embedded Unique].

(** [Create(VCursor, interface{}, []byte) error] and
    [Delete(VCursor, []interface{}, []byte) error] *)
Definition Lookup : InterfaceType :=
  Interface [Method "Create" (mkSig [VCursor_t; TEmptyInterface; bytes_t] [TError]);
             Method "Delete" (mkSig [VCursor_t; TSlice TEmptyInterface; bytes_t] [TError])].

(** ** Vindex values and [IsUnique] *)

(** A value of interface type [Vindex]: nil, or a dynamic type with the
    object it refers to (vindexes are compared by pointer). *)
Inductive Vindex :=
| nil_Vindex
| VindexOf (T : ConcreteType) (ref : positive).

(** The [ok] of a comma-ok type assertion [_, ok := v.(I)]: false on a
    nil interface value, otherwise whether the dynamic type implements
    [I]. *)
Definition type_assert_ok (v : Vindex) (I : InterfaceType) : bool :=
  match v with
  | nil_Vindex => false
  | VindexOf T _ => implements T I
  end.

(** [func IsUnique(v Vindex) bool { _, ok := v.(Unique); return ok }] *)
Definition IsUnique (v : Vindex) : bool := type_assert_ok v Unique.

(** Structural satisfaction, stated independently of the type test:
    [v] holds an object whose type has every method of [I]. *)
Definition satisfies (v : Vindex) (I : InterfaceType) : Prop :=
  ∃ T ref, v = VindexOf T ref ∧
           ∀ name sig, (name, sig) ∈ iface_methods I → method_set T !! name = Some sig.

(** A vindex value is well typed when its dynamic type implements the
    base [Vindex] interface. *)
Definition well_typed (v : Vindex) : Prop :=
  match v with
  | nil_Vindex => True
  | VindexOf T _ => implements T Vindex_iface = true
  end.

(** The optional capabilities layered on the base interface. *)
Inductive Capability :=
| CapUnique
| CapNonUnique
| CapReversible
| CapFunctional
| CapLookup.

Definition capability_iface (c : Capability) : InterfaceType :=
  match c with
  | CapUnique => Unique
  | CapNonUnique => NonUnique
  | CapReversible => Reversible
  | CapFunctional => Functional
  | CapLookup => Lookup
  end.

(** The capabilities a concrete type has. *)
Definition capabilities (T : ConcreteType) (c : Capability) : bool :=
  implements T (capability_iface c).

(** The capability sets that Go types can have: [Functional] has the
    method set of [Unique], and [Map] has one signature. *)
Definition realisable (want : Capability → bool) : Prop :=
  want CapFunctional = want CapUnique
  ∧ want CapUnique && want CapNonUnique = false.

(** The methods every vindex type carries. *)
Definition base_methods : gmap string Signature :=
  list_to_map (iface_methods Vindex_iface).

(** A vindex type built for a wanted set of capabilities.  [Map] can be
    declared once, so the unique signature wins when both are asked
    for. *)
Definition stub_type (want : Capability → bool) : ConcreteType :=
  mkType "stub"
    (base_methods
     ∪ (if want CapUnique then {["Map" := Unique_Map]}
        else if want CapNonUnique then {["Map" := NonUnique_Map]}
        else ∅)
     ∪ (if want CapReversible then list_to_map (iface_methods Reversible) else ∅)
     ∪ (if want CapLookup then list_to_map (iface_methods Lookup) else ∅)).

Definition unique_only (c : Capability) : bool :=
  match c with CapUnique | CapFunctional => true | _ => false end.

Definition nonunique_only (c : Capability) : bool :=
  match c with CapNonUnique => true | _ => false end.

Definition unique_and_nonunique (c : Capability) : bool :=
  match c with CapUnique | CapFunctional | CapNonUnique => true | _ => false end.

Definition unique_not_functional (c : Capability) : bool :=
  match c with CapUnique => true | _ => false end.

(** A stub with the unique [Map] only, and one with the non-unique
    [Map] only. *)
Definition UniqueStub : ConcreteType := stub_type unique_only.
Definition NonUniqueStub : ConcreteType := stub_type nonunique_only.

(** ** Strings and [fmt] *)

(** [fmt.Sprintf] restricted to the [%s] verb with string operands, the
    only use the file makes of it: each [%s] is replaced by the next
    operand, every other character is copied. *)
Fixpoint Sprintf (format : string) (args : list string) : string :=
  match format with
  | "" => ""
  | String "%"%char (String "s"%char rest) =>
      match args with
      | a :: args' => a +:+ Sprintf rest args'
      | [] => "%!s(MISSING)" +:+ Sprintf rest []
      end
  | String c rest => String c (Sprintf rest args)
  end.

(** [strings.Contains s substr]. *)
Fixpoint Contains (s substr : string) : bool :=
  String.prefix substr s ||
  match s with
  | "" => false
  | String _ s' => Contains s' substr
  end.

(** A value of interface type [error]: nil, or an error with the text
    its [Error] method returns. *)
Inductive error :=
| nil_error
| Error (text : string).

(** [fmt.Errorf format args]. *)
Definition Errorf (format : string) (args : list string) : error :=
  Error (Sprintf format args).

Definition error_text (e : error) : string :=
  match e with
  | nil_error => ""
  | Error text => text
  end.

(** ** The registry *)

Section Registry.

(** The values held by a [map[string]interface{}] of parameters; the
    file never inspects them. *)
Context {Value : Type}.

Abbreviation Params := (gmap string Value).

(** [type NewVindexFunc func(string, map[string]interface{}) (Vindex, error)].
    A value of a func type is nil or a function.  The constructors
    themselves live outside the file, and running one is running code
    that can reach the exported [Register]: on its name and parameters
    a constructor yields what it does to the package, a sequence of
    [Register] calls closed by a return of its result pair or by a
    panic.  After each [Register] it goes on from the outcome of the
    call, nothing when the call returned and the panic value when it
    panicked: the constructor may let that panic through or recover
    from it.  The unexported [registry] is out of its reach otherwise.
    Calls a constructor makes to [CreateVindex] are not part of the
    model. *)
Inductive NewVindexFunc :=
| nil_func
| Func (body : string → Params → Action)
with Action :=
| Return (v : Vindex) (err : error)
| Panic (value : string)
| CallRegister (vindexType : string) (newVindexFunc : NewVindexFunc)
    (next : option string → Action).

(** [var registry = make(map[string]NewVindexFunc)] *)
Abbreviation Registry := (gmap string NewVindexFunc).

Definition initial_registry : Registry := ∅.

(** The outcome of running package code on the registry: a normal
    return with the registry as left, or a panic with its value and
    the registry at that point. *)
Inductive Result (A : Type) :=
| Returned (a : A) (st : Registry)
| Panicked (value : string) (st : Registry).

Arguments Returned {A} a st.
Arguments Panicked {A} value st.

Definition M (A : Type) : Type := Registry → Result A.

Definition returned_value {A} (r : Result A) : option A :=
  match r with
  | Returned a _ => Some a
  | Panicked _ _ => None
  end.

Definition registry_after {A} (r : Result A) : Registry :=
  match r with
  | Returned _ st => st
  | Panicked _ st => st
  end.

Definition panicked {A} (r : Result A) : bool :=
  match r with
  | Returned _ _ => false
  | Panicked _ _ => true
  end.

(** State passing over the registry, with panics. *)
Definition ret {A} (a : A) : M A := λ st, Returned a st.

Definition bind {A B} (m : M A) (k : A → M B) : M B :=
  λ st, match m st with
        | Returned a st' => k a st'
        | Panicked value st' => Panicked value st'
        end.

Definition get : M Registry := λ st, Returned st st.

Definition put (st' : Registry) : M unit := λ _, Returned tt st'.

Definition panic {A} (value : string) : M A := λ st, Panicked value st.

(** A call seen from a caller that recovers: the panic value if the
    call panicked, nothing if it returned. *)
Definition recovered {A} (m : M A) : M (option string) :=
  λ st, match m st with
        | Returned _ st' => Returned None st'
        | Panicked value st' => Returned (Some value) st'
        end.

(** [[
    func Register(vindexType string, newVindexFunc NewVindexFunc) {
      if _, ok := registry[vindexType]; ok {
        panic(fmt.Sprintf("%s is already registered", vindexType))
      }
      registry[vindexType] = newVindexFunc
    }
    ]] *)
Definition Register (vindexType : string) (newVindexFunc : NewVindexFunc)
  : M unit :=
  bind get (λ registry,
    match registry !! vindexType with
    | Some _ => panic (Sprintf "%s is already registered" [vindexType])
    | None => put (<[vindexType := newVindexFunc]> registry)
    end).

(** Running what a constructor does: its [Register] calls are calls of
    [Register] on the registry of the package. *)
Fixpoint run (a : Action) : M (Vindex * error) :=
  match a with
  | Return v err => ret (v, err)
  | Panic value => panic value
  | CallRegister vindexType newVindexFunc next =>
      bind (recovered (Register vindexType newVindexFunc))
           (λ outcome, run (next outcome))
  end.

(** Calling a func value: a nil func panics with a runtime error, a
    function runs on the name and the parameters. *)
Definition call (f : NewVindexFunc) (name : string) (params : Params)
  : M (Vindex * error) :=
  match f with
  | nil_func => panic "runtime error: invalid memory address or nil pointer dereference"
  | Func body => run (body name params)
  end.

(** [[
    func CreateVindex(vindexType, name string, params map[string]interface{}) (Vindex, error) {
      f, ok := registry[vindexType]
      if !ok {
        return nil, fmt.Errorf("vindexType %s not found", vindexType)
      }
      return f(name, params)
    }
    ]] *)
Definition CreateVindex (vindexType name : string) (params : Params)
  : M (Vindex * error) :=
  bind get (λ registry,
    match registry !! vindexType with
    | None => ret (nil_Vindex, Errorf "vindexType %s not found" [vindexType])
    | Some f => call f name params
    end).

(** The exported operations of the file, as a process may issue them
    one after another. *)
Inductive Op :=
| OpRegister (vindexType : string) (newVindexFunc : NewVindexFunc)
| OpCreateVindex (vindexType name : string) (params : Params)
| OpIsUnique (v : Vindex).

Definition exec_op (op : Op) : M unit :=
  match op with
  | OpRegister vindexType newVindexFunc => Register vindexType newVindexFunc
  | OpCreateVindex vindexType name params =>
      bind (CreateVindex vindexType name params) (λ _, ret tt)
  | OpIsUnique v => bind (ret (IsUnique v)) (λ _, ret tt)
  end.

(** A run of operations; an unrecovered panic ends the process. *)
Fixpoint exec (ops : list Op) : M unit :=
  match ops with
  | [] => ret tt
  | op :: ops' => bind (exec_op op) (λ _, exec ops')
  end.

(** Whether what a constructor does includes a call of [Register]. *)
Definition calls_Register (a : Action) : bool :=
  match a with
  | CallRegister _ _ _ => true
  | _ => false
  end.

(** A constructor that never calls [Register], whatever its name and
    parameters. *)
Definition quiet (f : NewVindexFunc) : Prop :=
  match f with
  | nil_func => True
  | Func body => ∀ name params, calls_Register (body name params) = false
  end.

End Registry.

Arguments NewVindexFunc : clear implicits.
Arguments Action : clear implicits.
Arguments Result : clear implicits.
Arguments M : clear implicits.
Arguments Op : clear implicits.
Arguments Returned {Value A} a st.
Arguments Panicked {Value A} value st.

Abbreviation Params Value := (gmap string Value).
Abbreviation Registry Value := (gmap string (NewVindexFunc Value)).

(** ** Example constructors and registries *)

(** A constructor that accepts every configuration. *)
Definition new_stub_hash : NewVindexFunc string :=
  Func (λ _ _, Return (VindexOf UniqueStub 1) nil_error).

(** A constructor that insists on a [Table] parameter. *)
Definition new_stub_lookup : NewVindexFunc string :=
  Func (λ _ params,
    match params !! "Table" with
    | Some _ => Return (VindexOf NonUniqueStub 2) nil_error
    | None => Return nil_Vindex (Error "missing parameter Table")
    end).

(** A constructor that registers a further type before it looks at its
    parameters, and lets a panic of that [Register] through. *)
Definition new_stub_registering : NewVindexFunc string :=
  Func (λ _ params,
    CallRegister "stub_side" new_stub_hash (λ outcome,
      match outcome with
      | Some value => Panic value
      | None =>
          match params !! "Table" with
          | Some _ => Return (VindexOf UniqueStub 3) nil_error
          | None => Return nil_Vindex (Error "missing parameter Table")
          end
      end)).

(** A constructor that panics. *)
Definition new_stub_panicking : NewVindexFunc string :=
  Func (λ _ _, Panic "not implemented").

Definition example_registry : Registry string :=
  <["stub_lookup" := new_stub_lookup]> (<["stub_hash" := new_stub_hash]> initial_registry).

Definition registering_registry : Registry string :=
  <["stub_registering" := new_stub_registering]> initial_registry.

(** ** Runs of the registry *)

(** The registrations a run asks for, in order. *)
Definition registrations {Value} (ops : list (Op Value))
  : list (string * NewVindexFunc Value) :=
  omap (λ op, match op with
              | OpRegister vindexType newVindexFunc => Some (vindexType, newVindexFunc)
              | _ => None
              end) ops.

(** The registration phase: one [Register] call per entry, in order. *)
Definition register_all {Value} (regs : list (string * NewVindexFunc Value))
  : list (Op Value) :=
  (λ reg, OpRegister reg.1 reg.2) <$> regs.

(** A unique vindex type that is reversible and lookup-backed too. *)
Definition ReversibleLookupStub : ConcreteType :=
  stub_type (λ c, match c with CapNonUnique => false | _ => true end).

(** * Properties *)

(** ** Strings *)

Lemma prefix_append (t b : string) : String.prefix t (t +:+ b) = true.
Proof.
  induction t as [|c t IH]; simpl.
  - by destruct b.
  - by destruct (ascii_dec c c).
Qed.

Lemma prefix_append_weaken (sub s b : string) :
  String.prefix sub s = true → String.prefix sub (s +:+ b) = true.
Proof.
  revert sub. induction s as [|c s IH]; intros [|d sub]; simpl; try done.
  - by destruct b.
  - destruct (ascii_dec d c); [apply IH | done].
Qed.

Lemma Contains_unfold (s substr : string) :
  Contains s substr =
  String.prefix substr s ||
  match s with "" => false | String _ s' => Contains s' substr end.
Proof. by destruct s. Qed.

Lemma Contains_prefix (s substr : string) :
  String.prefix substr s = true → Contains s substr = true.
Proof. intros H. rewrite Contains_unfold, H. done. Qed.

Lemma Contains_append_r (a s substr : string) :
  Contains s substr = true → Contains (a +:+ s) substr = true.
Proof.
  intros H. induction a as [|c a IH]; [done|].
  change (String c a +:+ s) with (String c (a +:+ s)).
  rewrite Contains_unfold, IH. apply orb_true_r.
Qed.

Lemma Contains_append_l (s b substr : string) :
  Contains s substr = true → Contains (s +:+ b) substr = true.
Proof.
  induction s as [|c s IH]; intros H.
  - rewrite Contains_unfold, orb_false_r in H.
    apply Contains_prefix. by apply (prefix_append_weaken substr "" b).
  - rewrite Contains_unfold in H. apply orb_true_iff in H as [H|H].
    + apply Contains_prefix. by apply (prefix_append_weaken substr (String c s) b).
    + change (String c s +:+ b) with (String c (s +:+ b)).
      rewrite Contains_unfold, (IH H). apply orb_true_r.
Qed.

Lemma Contains_infix (a t b : string) : Contains (a +:+ t +:+ b) t = true.
Proof. apply Contains_append_r, Contains_prefix, prefix_append. Qed.

(** The two formats of the file, spelled out. *)
Lemma Sprintf_already_registered (t : string) :
  Sprintf "%s is already registered" [t] = t +:+ " is already registered".
Proof. reflexivity. Qed.

Lemma Sprintf_not_found (t : string) :
  Sprintf "vindexType %s not found" [t] = "vindexType " +:+ t +:+ " not found".
Proof. reflexivity. Qed.

(** ** Interfaces *)

Lemma implements_spec (T : ConcreteType) (I : InterfaceType) :
  implements T I = true ↔
  ∀ name sig, (name, sig) ∈ iface_methods I → method_set T !! name = Some sig.
Proof.
  unfold implements. rewrite forallb_forall. split.
  - intros H name sig Hin. apply list_elem_of_In, H in Hin.
    by apply bool_decide_eq_true in Hin.
  - intros H [name sig] Hin. apply bool_decide_eq_true.
    by apply H, list_elem_of_In.
Qed.

Lemma type_assert_ok_spec (v : Vindex) (I : InterfaceType) :
  type_assert_ok v I = true ↔ satisfies v I.
Proof.
  split.
  - destruct v as [|T ref]; [done|]. intros H.
    exists T, ref. split; [done|]. by apply implements_spec.
  - intros (T & ref & -> & H). by apply implements_spec.
Qed.

Lemma implements_Unique (T : ConcreteType) :
  implements T Unique = true ↔ method_set T !! "Map" = Some Unique_Map.
Proof.
  unfold implements. simpl. rewrite andb_true_r. apply bool_decide_eq_true.
Qed.

Lemma implements_NonUnique (T : ConcreteType) :
  implements T NonUnique = true ↔ method_set T !! "Map" = Some NonUnique_Map.
Proof.
  unfold implements. simpl. rewrite andb_true_r. apply bool_decide_eq_true.
Qed.

Lemma implements_Functional (T : ConcreteType) :
  implements T Functional = implements T Unique.
Proof. reflexivity. Qed.

(** One type cannot carry both [Map] methods. *)
Lemma Unique_excludes_NonUnique (T : ConcreteType) :
  implements T Unique = true → implements T NonUnique = false.
Proof.
  intros HU%implements_Unique. apply not_true_is_false.
  intros HN%implements_NonUnique. rewrite HU in HN. discriminate HN.
Qed.

(** C4. [IsUnique v] is true exactly when [v] structurally satisfies
    [Unique], i.e. holds an object whose type has the unique [Map]
    method; it is true on the stub with the unique [Map] only and
    false on the stub with the non-unique [Map] only. *)
Theorem IsUnique_iff_satisfies_Unique (v : Vindex) (ref : positive) :
  (IsUnique v = true ↔ satisfies v Unique)
  ∧ IsUnique (VindexOf UniqueStub ref) = true
  ∧ IsUnique (VindexOf NonUniqueStub ref) = false.
Proof.
  split; [apply type_assert_ok_spec|].
  split; vm_compute; reflexivity.
Qed.

(** C5. A vindex that satisfies [Functional] satisfies [Unique], and
    [IsUnique] answers true on it. *)
Theorem Functional_satisfies_Unique (v : Vindex) :
  satisfies v Functional → satisfies v Unique ∧ IsUnique v = true.
Proof.
  intros HF. assert (HU : satisfies v Unique).
  { destruct HF as (T & ref & -> & H). exists T, ref. split; [done|].
    intros name sig Hin. apply H. exact Hin. }
  split; [exact HU|]. by apply type_assert_ok_spec.
Qed.

Lemma Functional_satisfies_Unique_witness :
  satisfies (VindexOf UniqueStub 1) Unique ∧ IsUnique (VindexOf UniqueStub 1) = true.
Proof.
  apply (Functional_satisfies_Unique (VindexOf UniqueStub 1)).
  apply type_assert_ok_spec. vm_compute. reflexivity.
Defined.

Lemma capabilities_realisable (T : ConcreteType) : realisable (capabilities T).
Proof.
  split; [reflexivity|]. unfold capabilities. simpl.
  destruct (implements T Unique) eqn:HU; [|done].
  by rewrite (Unique_excludes_NonUnique T HU).
Qed.

Lemma stub_type_capabilities (want : Capability → bool) (c : Capability) :
  realisable want → capabilities (stub_type want) c = want c.
Proof.
  intros [HF HUN]. unfold capabilities, stub_type.
  destruct (want CapUnique) eqn:HU, (want CapNonUnique) eqn:HN; try discriminate HUN;
    destruct (want CapReversible) eqn:HR, (want CapLookup) eqn:HL;
    destruct c; rewrite ?HF, ?HU, ?HN, ?HR, ?HL; vm_compute; reflexivity.
Qed.

Lemma stub_type_implements_Vindex (want : Capability → bool) :
  implements (stub_type want) Vindex_iface = true.
Proof.
  unfold stub_type.
  destruct (want CapUnique), (want CapNonUnique), (want CapReversible), (want CapLookup);
    vm_compute; reflexivity.
Qed.

(** C6, as stated, fails: no vindex type has the unique and the
    non-unique [Map] at once, although that set is consistent with
    [Functional] implying [Unique]. *)
Lemma not_every_capability_subset :
  ¬ (∀ want : Capability → bool,
       (want CapFunctional = true → want CapUnique = true) →
       ∃ T, implements T Vindex_iface = true ∧ ∀ c, capabilities T c = want c).
Proof.
  intros H. destruct (H unique_and_nonunique) as (T & _ & HT); [done|].
  pose proof (HT CapUnique) as HU. pose proof (HT CapNonUnique) as HN.
  unfold capabilities in HU, HN. simpl in HU, HN.
  rewrite (Unique_excludes_NonUnique T HU) in HN. discriminate HN.
Qed.

(** Nor is there a type that is [Unique] and not [Functional]. *)
Lemma Unique_without_Functional :
  ¬ ∃ T, ∀ c, capabilities T c = unique_not_functional c.
Proof.
  intros (T & HT). pose proof (HT CapUnique) as HU. pose proof (HT CapFunctional) as HF.
  unfold capabilities in HU, HF. simpl in HU, HF.
  rewrite implements_Functional, HU in HF. discriminate HF.
Qed.

(** C6, amended. A set of capabilities is the capability set of some
    vindex type exactly when it holds [Functional] if and only if it
    holds [Unique], and does not hold both [Unique] and [NonUnique];
    [Reversible] and [Lookup] are free. *)
Theorem capability_subsets (want : Capability → bool) :
  (∃ T, implements T Vindex_iface = true ∧ ∀ c, capabilities T c = want c)
  ↔ realisable want.
Proof.
  split.
  - intros (T & _ & HT). destruct (capabilities_realisable T) as [HF HUN].
    split; [by rewrite <- !HT | by rewrite <- !HT].
  - intros Hr. exists (stub_type want). split.
    + apply stub_type_implements_Vindex.
    + intros c. by apply stub_type_capabilities.
Qed.

(** ** The registry *)

Section RegistryProperties.

Context {Value : Type}.

Implicit Types (registry : Registry Value) (f g : NewVindexFunc Value).
Implicit Types (vindexType name : string) (params : Params Value).

Lemma Register_present registry vindexType f :
  is_Some (registry !! vindexType) →
  Register vindexType f registry
  = Panicked (vindexType +:+ " is already registered") registry.
Proof.
  intros [g Hg]. unfold Register, bind, get. by rewrite Hg.
Qed.

Lemma Register_absent registry vindexType f :
  registry !! vindexType = None →
  Register vindexType f registry = Returned tt (<[vindexType := f]> registry).
Proof.
  intros Hg. unfold Register, bind, get. by rewrite Hg.
Qed.

Lemma CreateVindex_absent registry vindexType name params :
  registry !! vindexType = None →
  CreateVindex vindexType name params registry
  = Returned (nil_Vindex, Error ("vindexType " +:+ vindexType +:+ " not found")) registry.
Proof.
  intros Hg. unfold CreateVindex, bind, get. by rewrite Hg.
Qed.

Lemma CreateVindex_present registry vindexType name params f :
  registry !! vindexType = Some f →
  CreateVindex vindexType name params registry = call f name params registry.
Proof.
  intros Hg. unfold CreateVindex, bind, get. by rewrite Hg.
Qed.

Lemma Register_registry_after registry vindexType f :
  registry ⊆ registry_after (Register vindexType f registry).
Proof.
  destruct (registry !! vindexType) as [g|] eqn:Hg.
  - by rewrite Register_present.
  - rewrite Register_absent by done. by apply insert_subseteq.
Qed.

Lemma run_CallRegister registry vindexType f (next : option string → Action Value) :
  run (CallRegister vindexType f next) registry
  = match registry !! vindexType with
    | Some _ => run (next (Some (vindexType +:+ " is already registered"))) registry
    | None => run (next None) (<[vindexType := f]> registry)
    end.
Proof.
  simpl. unfold bind, recovered. destruct (registry !! vindexType) as [g|] eqn:Hg.
  - rewrite Register_present; by eauto.
  - by rewrite Register_absent.
Qed.

(** Running a constructor keeps every binding: its [Register] calls
    insert at absent names or panic before writing. *)
Lemma run_registry_after (a : Action Value) registry :
  registry ⊆ registry_after (run a registry).
Proof.
  revert registry. induction a as [v err|value|t f next IH]; intros registry; [done|done|].
  rewrite run_CallRegister. destruct (registry !! t) as [g|] eqn:Hg; [apply IH|].
  etrans; [by apply (insert_subseteq registry t f)|apply IH].
Qed.

Lemma run_without_Register (a : Action Value) registry :
  calls_Register a = false → registry_after (run a registry) = registry.
Proof. by destruct a. Qed.

Lemma call_registry_after registry f name params :
  registry ⊆ registry_after (call f name params registry).
Proof. destruct f as [|body]; [done|apply run_registry_after]. Qed.

Lemma CreateVindex_registry_after registry vindexType name params :
  registry ⊆ registry_after (CreateVindex vindexType name params registry).
Proof.
  destruct (registry !! vindexType) as [f|] eqn:Hg.
  - rewrite (CreateVindex_present _ _ _ _ f Hg). apply call_registry_after.
  - by rewrite CreateVindex_absent.
Qed.

(** [CreateVindex] writes nothing itself: the registry changes over a
    call only when the constructor found calls [Register]. *)
Lemma CreateVindex_registry_unchanged registry vindexType name params :
  (∀ body, registry !! vindexType = Some (Func body) →
           calls_Register (body name params) = false) →
  registry_after (CreateVindex vindexType name params registry) = registry.
Proof.
  intros Hquiet. destruct (registry !! vindexType) as [[|body]|] eqn:Hg.
  - by rewrite (CreateVindex_present _ _ _ _ nil_func Hg).
  - rewrite (CreateVindex_present _ _ _ _ (Func body) Hg). simpl.
    by apply run_without_Register, Hquiet.
  - by rewrite CreateVindex_absent.
Qed.


Lemma bind_registry_after {A B} (m : M Value A) (k : A → M Value B) registry :
  registry ⊆ registry_after (m registry) →
  (∀ a st, st ⊆ registry_after (k a st)) →
  registry ⊆ registry_after (bind m k registry).
Proof.
  intros Hm Hk. unfold bind. destruct (m registry) as [a st|value st]; simpl in *.
  - etrans; [exact Hm | apply Hk].
  - exact Hm.
Qed.

Lemma exec_op_registry_after registry (op : Op Value) :
  registry ⊆ registry_after (exec_op op registry).
Proof.
  destruct op as [vindexType f|vindexType name params|v]; simpl.
  - apply Register_registry_after.
  - apply bind_registry_after; [apply CreateVindex_registry_after|done].
  - done.
Qed.

(** C1. With a type name that is not in the registry, [CreateVindex]
    returns the nil vindex with a non-nil error whose text is
    "vindexType <name> not found": it says not found and contains the
    type name. *)
Theorem CreateVindex_unregistered registry vindexType name params :
  registry !! vindexType = None →
  ∃ err,
    CreateVindex vindexType name params registry = Returned (nil_Vindex, err) registry
    ∧ err = Errorf "vindexType %s not found" [vindexType]
    ∧ err ≠ nil_error
    ∧ Contains (error_text err) "not found" = true
    ∧ Contains (error_text err) vindexType = true.
Proof.
  intros Hg. exists (Error ("vindexType " +:+ vindexType +:+ " not found")).
  split; [by apply CreateVindex_absent|].
  split; [reflexivity|]. split; [discriminate|]. unfold error_text. split.
  - apply (Contains_append_r "vindexType "), (Contains_append_r vindexType).
    reflexivity.
  - apply Contains_infix.
Qed.

(** C2. With a registered type name, [CreateVindex] is the call of the
    registered constructor on the name and the parameters as given:
    when the constructor is a function, what the function does on them
    is what [CreateVindex] does, and the pair it returns, a vindex or
    an error alike, is returned as it is. *)
Theorem CreateVindex_delegates registry vindexType name params f :
  registry !! vindexType = Some f →
  CreateVindex vindexType name params registry = call f name params registry
  ∧ (∀ body, f = Func body →
       CreateVindex vindexType name params registry
       = run (body name params) registry)
  ∧ (∀ body v err, f = Func body → body name params = Return v err →
       CreateVindex vindexType name params registry = Returned (v, err) registry).
Proof.
  intros Hg. rewrite (CreateVindex_present _ _ _ _ f Hg).
  split; [reflexivity|]. split.
  - by intros body ->.
  - intros body v err -> Hbody. simpl. by rewrite Hbody.
Qed.

(** C3. [Register] on a type name that is present panics, with the
    message "<name> is already registered", and leaves the registry as
    it was; so two [Register] calls in a row with one name never both
    return, whatever the registry held before. *)
Theorem Register_duplicate_is_fatal registry vindexType f g :
  (is_Some (registry !! vindexType) →
   Register vindexType f registry
   = Panicked (Sprintf "%s is already registered" [vindexType]) registry)
  ∧ ∃ st, bind (Register vindexType f) (λ _, Register vindexType g) registry
          = Panicked (Sprintf "%s is already registered" [vindexType]) st.
Proof.
  split; [apply Register_present|].
  unfold bind. destruct (registry !! vindexType) as [h|] eqn:Hg.
  - exists registry. by rewrite Register_present.
  - exists (<[vindexType := f]> registry).
    rewrite Register_absent by done. apply Register_present.
    rewrite lookup_insert_eq. by eexists.
Qed.

(** C7. Whatever operations run and however the run ends, every
    binding the registry held before is still there, to the same
    constructor; a registry that held a binding is never empty
    again. *)
Theorem registry_monotone (ops : list (Op Value)) registry :
  registry ⊆ registry_after (exec ops registry)
  ∧ (∀ vindexType f,
       registry !! vindexType = Some f →
       registry_after (exec ops registry) !! vindexType = Some f)
  ∧ (registry ≠ ∅ → registry_after (exec ops registry) ≠ ∅).
Proof.
  assert (Hsub : registry ⊆ registry_after (exec ops registry)).
  { revert registry. induction ops as [|op ops IH]; intros registry; simpl.
    - done.
    - apply bind_registry_after; [apply exec_op_registry_after|].
      intros _ st. apply IH. }
  split; [exact Hsub|]. split.
  - intros vindexType f Hg. by eapply lookup_weaken.
  - intros Hne Hempty. rewrite Hempty in Hsub.
    apply Hne, map_empty. intros i.
    destruct (registry !! i) as [f|] eqn:Hi; [|done].
    by apply (lookup_weaken _ _ _ _ Hi) in Hsub.
Qed.



(** C10. [Register] on a type name that is absent returns without a
    panic, and the registry it leaves is the old one with the one new
    binding: the name maps to the constructor given, every other name
    is as before. *)
Theorem Register_fresh registry vindexType f :
  registry !! vindexType = None →
  Register vindexType f registry = Returned tt (<[vindexType := f]> registry)
  ∧ panicked (Register vindexType f registry) = false
  ∧ registry_after (Register vindexType f registry) !! vindexType = Some f
  ∧ ∀ other, other ≠ vindexType →
      registry_after (Register vindexType f registry) !! other = registry !! other.
Proof.
  intros Hg. rewrite (Register_absent _ _ _ Hg). simpl.
  split; [reflexivity|]. split; [reflexivity|]. split.
  - apply lookup_insert_eq.
  - intros other Hne. by apply lookup_insert_ne.
Qed.

End RegistryProperties.

(** ** The properties on the example registry *)

Example example_run :
  exec [OpRegister "stub_hash" new_stub_hash;
        OpCreateVindex "stub_hash" "idx1" ∅;
        OpIsUnique (VindexOf UniqueStub 1);
        OpRegister "stub_lookup" new_stub_lookup;
        OpCreateVindex "nonexistent" "idx2" ∅;
        OpRegister "stub_hash" new_stub_lookup]
       initial_registry
  = Panicked "stub_hash is already registered" example_registry.
Proof. vm_compute. reflexivity. Qed.

Example example_create :
  CreateVindex "stub_hash" "idx1" ∅ example_registry
  = Returned (VindexOf UniqueStub 1, nil_error) example_registry.
Proof. reflexivity. Qed.

Lemma CreateVindex_unregistered_witness :
  ∃ err,
    CreateVindex "nonexistent" "idx2" ∅ example_registry
    = Returned (nil_Vindex, err) example_registry
    ∧ err = Errorf "vindexType %s not found" ["nonexistent"]
    ∧ err ≠ nil_error
    ∧ Contains (error_text err) "not found" = true
    ∧ Contains (error_text err) "nonexistent" = true.
Proof.
  apply (CreateVindex_unregistered example_registry "nonexistent" "idx2" ∅).
  reflexivity.
Defined.

Lemma CreateVindex_delegates_witness :
  CreateVindex "stub_lookup" "idx1" ∅ example_registry
  = Returned (nil_Vindex, Error "missing parameter Table") example_registry.
Proof.
  destruct (CreateVindex_delegates example_registry "stub_lookup" "idx1" ∅ new_stub_lookup)
    as (_ & _ & Hbody); [reflexivity|].
  exact (Hbody _ _ _ eq_refl eq_refl).
Defined.

Lemma Register_duplicate_is_fatal_witness :
  Register "stub_hash" new_stub_lookup example_registry
  = Panicked "stub_hash is already registered" example_registry.
Proof.
  apply (Register_duplicate_is_fatal example_registry "stub_hash"
           new_stub_lookup new_stub_lookup).
  exists new_stub_hash. reflexivity.
Defined.




Example example_registering :
  CreateVindex "stub_registering" "idx1" {["Table" := "t"]} registering_registry
  = Returned (VindexOf UniqueStub 3, nil_error)
             (<["stub_side" := new_stub_hash]> registering_registry).
Proof. vm_compute. reflexivity. Qed.

Example example_registering_twice :
  bind (CreateVindex "stub_registering" "idx1" ∅)
       (λ _, CreateVindex "stub_registering" "idx2" ∅) registering_registry
  = Panicked "stub_side is already registered"
             (<["stub_side" := new_stub_hash]> registering_registry).
Proof. vm_compute. reflexivity. Qed.

Example example_panicking :
  CreateVindex "stub_panicking" "idx1" ∅
    (<["stub_panicking" := new_stub_panicking]> example_registry)
  = Panicked "not implemented" (<["stub_panicking" := new_stub_panicking]> example_registry).
Proof. reflexivity. Qed.

Lemma Register_fresh_witness :
  Register "stub_hash" new_stub_hash initial_registry
  = Returned tt (<["stub_hash" := new_stub_hash]> initial_registry)
  ∧ panicked (Register "stub_hash" new_stub_hash initial_registry) = false
  ∧ registry_after (Register "stub_hash" new_stub_hash initial_registry) !! "stub_hash"
    = Some new_stub_hash
  ∧ ∀ other, other ≠ "stub_hash" →
      registry_after (Register "stub_hash" new_stub_hash initial_registry) !! other
      = initial_registry !! other.
Proof.
  apply (Register_fresh initial_registry "stub_hash" new_stub_hash).
  reflexivity.
Defined.

(** ** Further properties of the type test *)

(** X6. [IsUnique] answers false on every vindex that satisfies
    [NonUnique]: the two [Map] signatures cannot be told apart by name,
    only by result type, and a type has one of them at most. *)
Theorem IsUnique_false_on_NonUnique (v : Vindex) :
  satisfies v NonUnique → IsUnique v = false.
Proof.
  intros HN%type_assert_ok_spec. destruct v as [|T ref]; [done|].
  simpl in HN. apply not_true_is_false. intros HU.
  unfold IsUnique in HU. simpl in HU.
  rewrite (Unique_excludes_NonUnique T HU) in HN. discriminate HN.
Qed.

Lemma IsUnique_false_on_NonUnique_witness :
  IsUnique (VindexOf NonUniqueStub 2) = false.
Proof.
  apply (IsUnique_false_on_NonUnique (VindexOf NonUniqueStub 2)).
  apply type_assert_ok_spec. vm_compute. reflexivity.
Defined.

Lemma implements_more_methods (T T' : ConcreteType) (I : InterfaceType) :
  method_set T ⊆ method_set T' → implements T I = true → implements T' I = true.
Proof.
  intros Hsub HT. apply implements_spec. intros name sig Hin.
  eapply lookup_weaken; [|exact Hsub]. by apply (implements_spec T I).
Qed.

(** X7. A type that gains methods loses nothing: when the method set of
    [T'] extends that of [T] and [IsUnique] is true on a [T], it is true
    on a [T'], and every capability of [T] is one of [T'].  A unique
    vindex stays unique when [ReverseMap], [Create] and [Delete] are
    added to it. *)
Theorem IsUnique_kept_by_more_methods (T T' : ConcreteType) (ref ref' : positive) :
  method_set T ⊆ method_set T' →
  IsUnique (VindexOf T ref) = true →
  IsUnique (VindexOf T' ref') = true
  ∧ ∀ c, capabilities T c = true → capabilities T' c = true.
Proof.
  intros Hsub HU. split.
  - unfold IsUnique in *. simpl in *. by apply (implements_more_methods T T').
  - intros c. unfold capabilities. by apply implements_more_methods.
Qed.

Lemma IsUnique_kept_by_more_methods_witness :
  IsUnique (VindexOf ReversibleLookupStub 3) = true
  ∧ ∀ c, capabilities UniqueStub c = true → capabilities ReversibleLookupStub c = true.
Proof.
  apply (IsUnique_kept_by_more_methods UniqueStub ReversibleLookupStub 1 3).
  - apply (bool_decide_unpack _). vm_compute. exact I.
  - vm_compute. reflexivity.
Defined.

(** ** Runs of the registry *)

Section RegistryRuns.

Context {Value : Type}.

Implicit Types (registry st : Registry Value) (f g : NewVindexFunc Value).
Implicit Types (vindexType name : string) (params : Params Value).
Implicit Types (ops : list (Op Value)) (regs : list (string * NewVindexFunc Value)).

Lemma exec_cons_Register ops registry vindexType f :
  exec (OpRegister vindexType f :: ops) registry
  = match registry !! vindexType with
    | Some _ => Panicked (vindexType +:+ " is already registered") registry
    | None => exec ops (<[vindexType := f]> registry)
    end.
Proof.
  simpl. unfold bind. destruct (registry !! vindexType) as [g|] eqn:Hg.
  - rewrite Register_present; by eauto.
  - by rewrite Register_absent.
Qed.

Lemma exec_cons_CreateVindex ops registry vindexType name params :
  exec (OpCreateVindex vindexType name params :: ops) registry
  = match CreateVindex vindexType name params registry with
    | Returned _ st => exec ops st
    | Panicked value st => Panicked value st
    end.
Proof.
  simpl. unfold bind. by destruct (CreateVindex vindexType name params registry).
Qed.

Lemma exec_cons_IsUnique ops registry v :
  exec (OpIsUnique v :: ops) registry = exec ops registry.
Proof. reflexivity. Qed.

Lemma exec_registry_after ops registry :
  registry ⊆ registry_after (exec ops registry).
Proof.
  revert registry. induction ops as [|op ops IH]; intros registry; [done|].
  simpl. apply bind_registry_after; [apply exec_op_registry_after|].
  intros _ st. apply IH.
Qed.

Lemma registrations_cons_Register ops vindexType f :
  registrations (OpRegister vindexType f :: ops) = (vindexType, f) :: registrations ops.
Proof. reflexivity. Qed.

Lemma registrations_cons_read ops (op : Op Value) :
  (∀ vindexType f, op ≠ OpRegister vindexType f) →
  registrations (op :: ops) = registrations ops.
Proof. intros Hop. destruct op as [t f| |]; [by destruct (Hop t f)|done|done]. Qed.

Lemma list_to_map_cons_union regs registry vindexType f :
  vindexType ∉ regs.*1 →
  list_to_map ((vindexType, f) :: regs) ∪ registry
  = list_to_map regs ∪ <[vindexType := f]> registry.
Proof.
  intros Hnot. rewrite list_to_map_cons, <- insert_union_l.
  rewrite insert_union_r; [done|]. by apply not_elem_of_list_to_map_1.
Qed.

(** With quiet constructors only, a [CreateVindex] in a run is a read. *)
Lemma exec_cons_CreateVindex_quiet ops registry vindexType name params :
  map_Forall (λ _ f, quiet f) registry →
  exec (OpCreateVindex vindexType name params :: ops) registry = exec ops registry
  ∨ ∃ value,
      exec (OpCreateVindex vindexType name params :: ops) registry
      = Panicked value registry.
Proof.
  intros Hquiet. rewrite exec_cons_CreateVindex.
  assert (Hst : registry_after (CreateVindex vindexType name params registry) = registry).
  { apply CreateVindex_registry_unchanged. intros body Hg.
    apply (Hquiet _ _ Hg). }
  destruct (CreateVindex vindexType name params registry) as [a st|value st];
    simpl in Hst; subst st; [by left|right; by exists value].
Qed.

Lemma quiet_insert registry vindexType f :
  map_Forall (λ _ g, quiet g) registry → quiet f →
  map_Forall (λ _ g, quiet g) (<[vindexType := f]> registry).
Proof. intros Hquiet Hf. by apply map_Forall_insert_2. Qed.

(** X1. Round trip. After [Register] of an absent type name,
    [CreateVindex] with that name is the call of the constructor just
    registered, on the name and parameters given and on the registry
    that holds the new binding; a nil constructor, which [Register]
    accepts, makes the creation panic.  Whatever the constructor does,
    the name is bound to it afterwards, and what the registry held
    before is kept. *)
Theorem Register_then_CreateVindex registry vindexType name params f :
  registry !! vindexType = None →
  bind (Register vindexType f) (λ _, CreateVindex vindexType name params) registry
  = call f name params (<[vindexType := f]> registry)
  ∧ (f = nil_func →
     bind (Register vindexType f) (λ _, CreateVindex vindexType name params) registry
     = Panicked "runtime error: invalid memory address or nil pointer dereference"
                (<[vindexType := f]> registry))
  ∧ registry_after
      (bind (Register vindexType f) (λ _, CreateVindex vindexType name params) registry)
    !! vindexType = Some f
  ∧ registry
    ⊆ registry_after
        (bind (Register vindexType f) (λ _, CreateVindex vindexType name params) registry).
Proof.
  intros Hg.
  assert (Hrun : bind (Register vindexType f)
                      (λ _, CreateVindex vindexType name params) registry
                 = call f name params (<[vindexType := f]> registry)).
  { unfold bind. rewrite (Register_absent _ _ _ Hg).
    by rewrite (CreateVindex_present _ _ _ _ f) by apply lookup_insert_eq. }
  rewrite Hrun. split; [done|]. split; [by intros ->|]. split.
  - eapply lookup_weaken; [apply lookup_insert_eq|apply call_registry_after].
  - etrans; [by apply (insert_subseteq registry vindexType f)|apply call_registry_after].
Qed.

(** X2. Stability. A type name that is registered keeps its
    constructor through any further run: [CreateVindex] with that name
    on the registry the run leaves is still the call of the same
    constructor. *)
Theorem CreateVindex_stable ops registry vindexType name params f :
  registry !! vindexType = Some f →
  CreateVindex vindexType name params (registry_after (exec ops registry))
  = call f name params (registry_after (exec ops registry)).
Proof.
  intros Hg. apply CreateVindex_present.
  eapply lookup_weaken; [exact Hg|apply exec_registry_after].
Qed.

(** X3. Provenance. In a run whose constructors, those the registry
    holds and those the run registers, never call [Register], a binding
    found in the registry after the run was there before the run or
    was made by a [Register] of the run, with that very constructor:
    [CreateVindex] and [IsUnique] put nothing in the registry
    themselves. *)
Theorem registry_bindings_come_from_Register ops registry vindexType f :
  map_Forall (λ _ g, quiet g) registry →
  Forall (λ reg, quiet reg.2) (registrations ops) →
  registry_after (exec ops registry) !! vindexType = Some f →
  registry !! vindexType = Some f ∨ (vindexType, f) ∈ registrations ops.
Proof.
  revert registry. induction ops as [|op ops IH]; intros registry Hquiet Hregs Hst.
  - by left.
  - destruct op as [t g|t n p|v].
    + rewrite exec_cons_Register in Hst. rewrite registrations_cons_Register in *.
      apply Forall_cons in Hregs as [Hg' Hregs].
      destruct (registry !! t) as [h|] eqn:Hg; [by left|].
      destruct (IH _ (quiet_insert _ t g Hquiet Hg') Hregs Hst) as [Hin|Hin];
        [|right; apply elem_of_cons; by right].
      destruct (decide (t = vindexType)) as [->|Hne].
      * rewrite lookup_insert_eq in Hin. injection Hin as ->.
        right. apply elem_of_cons. by left.
      * rewrite lookup_insert_ne in Hin by done. by left.
    + rewrite registrations_cons_read in * by done.
      destruct (exec_cons_CreateVindex_quiet ops registry t n p Hquiet) as [Heq|[value Heq]];
        rewrite Heq in Hst; [by apply IH|by left].
    + rewrite exec_cons_IsUnique in Hst. rewrite registrations_cons_read in * by done.
      by apply IH.
Qed.

(** X4. Registered once. A run that ends without a panic registered
    pairwise distinct type names, none of which the registry held
    before, and the registry it leaves holds what it found and those
    bindings; it holds nothing more when the constructors, those the
    registry held and those the run registered, never call
    [Register]. *)
Theorem completed_run_registers_once ops registry st :
  exec ops registry = Returned tt st →
  NoDup (registrations ops).*1
  ∧ (∀ vindexType, vindexType ∈ (registrations ops).*1 → registry !! vindexType = None)
  ∧ list_to_map (registrations ops) ∪ registry ⊆ st
  ∧ (map_Forall (λ _ g, quiet g) registry →
     Forall (λ reg, quiet reg.2) (registrations ops) →
     st = list_to_map (registrations ops) ∪ registry).
Proof.
  revert registry. induction ops as [|op ops IH]; intros registry Hrun.
  - injection Hrun as <-.
    change (registrations []) with (@nil (string * NewVindexFunc Value)).
    rewrite list_to_map_nil, (left_id_L ∅ (∪)).
    split; [constructor|]. split; [|done].
    intros t Hin. by apply elem_of_nil in Hin.
  - destruct op as [t f|t n p|v].
    + rewrite exec_cons_Register in Hrun.
      destruct (registry !! t) as [g|] eqn:Hg; [discriminate Hrun|].
      destruct (IH _ Hrun) as (Hnd & Hfresh & Hsub & Heq).
      assert (Hnot : t ∉ (registrations ops).*1).
      { intros Hin%Hfresh. by rewrite lookup_insert_eq in Hin. }
      rewrite registrations_cons_Register, (list_to_map_cons_union _ _ _ _ Hnot).
      rewrite fmap_cons. simpl.
      split; [by apply NoDup_cons|]. split; [|split; [done|]].
      * intros t' [->|Hin%Hfresh]%elem_of_cons; [done|].
        by apply lookup_insert_None in Hin as [? _].
      * intros Hquiet [Hf Hregs]%Forall_cons. apply Heq; [|done].
        by apply quiet_insert.
    + rewrite registrations_cons_read by done.
      rewrite exec_cons_CreateVindex in Hrun.
      pose proof (CreateVindex_registry_after registry t n p) as Hgrow.
      destruct (CreateVindex t n p registry) as [a st'|value st'] eqn:Hcreate;
        [|discriminate Hrun]. simpl in Hgrow.
      destruct (IH _ Hrun) as (Hnd & Hfresh & Hsub & Heq).
      split; [done|]. split; [|split].
      * intros t' Hin%Hfresh. by eapply lookup_weaken_None.
      * etrans; [by apply map_union_mono_l|done].
      * intros Hquiet Hregs.
        assert (Hst : st' = registry).
        { pose proof (CreateVindex_registry_unchanged registry t n p) as Hsame.
          rewrite Hcreate in Hsame. apply Hsame. intros body Hg.
          apply (Hquiet _ _ Hg). }
        subst st'. by apply Heq.
    + rewrite registrations_cons_read by done. rewrite exec_cons_IsUnique in Hrun.
      by apply IH.
Qed.

(** X5. Registration phase. Registering pairwise distinct type names that
    the registry does not hold never panics; on the registry it leaves,
    [CreateVindex] with a registered name is the call of the
    constructor registered under it, and with any other name, absent
    before too, the not-found error. *)
Theorem registration_phase regs registry :
  NoDup regs.*1 →
  (∀ vindexType, vindexType ∈ regs.*1 → registry !! vindexType = None) →
  ∃ st,
    exec (register_all regs) registry = Returned tt st
    ∧ st = list_to_map regs ∪ registry
    ∧ (∀ vindexType f name params,
         (vindexType, f) ∈ regs →
         CreateVindex vindexType name params st = call f name params st)
    ∧ (∀ vindexType name params,
         vindexType ∉ regs.*1 → registry !! vindexType = None →
         CreateVindex vindexType name params st
         = Returned (nil_Vindex, Errorf "vindexType %s not found" [vindexType]) st).
Proof.
  intros Hnd Hfresh. exists (list_to_map regs ∪ registry).
  split; [|split; [done|split]].
  - revert registry Hfresh. induction regs as [|[t f] regs IH]; intros registry Hfresh.
    + by rewrite list_to_map_nil, (left_id_L ∅ (∪)).
    + change (register_all ((t, f) :: regs)) with (OpRegister t f :: register_all regs).
      rewrite fmap_cons in Hnd, Hfresh. simpl in Hnd, Hfresh.
      apply NoDup_cons in Hnd as [Hnot Hnd].
      rewrite exec_cons_Register, (Hfresh t) by (apply elem_of_cons; by left).
      rewrite (IH Hnd).
      * by rewrite list_to_map_cons_union.
      * intros t' Hin. rewrite lookup_insert_ne; [|by intros ->].
        apply Hfresh, elem_of_cons. by right.
  - intros t f name params Hin. apply CreateVindex_present.
    apply lookup_union_Some_l. by apply elem_of_list_to_map_1.
  - intros t name params Hnot Hg. apply CreateVindex_absent.
    apply lookup_union_None_2; [by apply not_elem_of_list_to_map_1|done].
Qed.

End RegistryRuns.

(** ** The runs on the example registry *)

Lemma Register_then_CreateVindex_witness :
  bind (Register "stub_registering" new_stub_registering)
       (λ _, CreateVindex "stub_registering" "idx1" ∅) example_registry
  = call new_stub_registering "idx1" ∅
      (<["stub_registering" := new_stub_registering]> example_registry)
  ∧ (new_stub_registering = nil_func →
     bind (Register "stub_registering" new_stub_registering)
          (λ _, CreateVindex "stub_registering" "idx1" ∅) example_registry
     = Panicked "runtime error: invalid memory address or nil pointer dereference"
                (<["stub_registering" := new_stub_registering]> example_registry))
  ∧ registry_after
      (bind (Register "stub_registering" new_stub_registering)
            (λ _, CreateVindex "stub_registering" "idx1" ∅) example_registry)
    !! "stub_registering" = Some new_stub_registering
  ∧ example_registry
    ⊆ registry_after
        (bind (Register "stub_registering" new_stub_registering)
              (λ _, CreateVindex "stub_registering" "idx1" ∅) example_registry).
Proof.
  apply (Register_then_CreateVindex example_registry "stub_registering" "idx1" ∅
           new_stub_registering).
  reflexivity.
Defined.

Lemma CreateVindex_stable_witness :
  CreateVindex "stub_hash" "idx1" ∅
    (registry_after (exec [OpRegister "other" nil_func;
                           OpCreateVindex "other" "idx3" ∅] example_registry))
  = call new_stub_hash "idx1" ∅
      (registry_after (exec [OpRegister "other" nil_func;
                             OpCreateVindex "other" "idx3" ∅] example_registry)).
Proof.
  apply (CreateVindex_stable [OpRegister "other" nil_func; OpCreateVindex "other" "idx3" ∅]
           example_registry "stub_hash" "idx1" ∅ new_stub_hash).
  reflexivity.
Defined.

Lemma registry_bindings_come_from_Register_witness :
  initial_registry !! "stub_hash" = Some new_stub_hash
  ∨ ("stub_hash", new_stub_hash)
    ∈ registrations [OpRegister "stub_hash" new_stub_hash;
                     OpCreateVindex "stub_hash" "idx1" (∅ : Params string);
                     OpRegister "stub_hash" new_stub_lookup].
Proof.
  apply (registry_bindings_come_from_Register
           [OpRegister "stub_hash" new_stub_hash;
            OpCreateVindex "stub_hash" "idx1" ∅;
            OpRegister "stub_hash" new_stub_lookup]
           initial_registry "stub_hash" new_stub_hash).
  - apply map_Forall_empty.
  - repeat constructor; intros name params; simpl; by destruct (params !! "Table").
  - reflexivity.
Defined.

Lemma completed_run_registers_once_witness :
  NoDup (registrations [OpRegister "stub_hash" new_stub_hash;
                        OpCreateVindex "stub_hash" "idx1" (∅ : Params string);
                        OpRegister "stub_lookup" new_stub_lookup]).*1
  ∧ (∀ vindexType,
       vindexType ∈ (registrations [OpRegister "stub_hash" new_stub_hash;
                                    OpCreateVindex "stub_hash" "idx1" (∅ : Params string);
                                    OpRegister "stub_lookup" new_stub_lookup]).*1 →
       initial_registry (Value := string) !! vindexType = None)
  ∧ list_to_map (registrations [OpRegister "stub_hash" new_stub_hash;
                                OpCreateVindex "stub_hash" "idx1" (∅ : Params string);
                                OpRegister "stub_lookup" new_stub_lookup])
    ∪ initial_registry ⊆ example_registry
  ∧ (map_Forall (λ _ g, quiet g) (initial_registry (Value := string)) →
     Forall (λ reg, quiet reg.2)
       (registrations [OpRegister "stub_hash" new_stub_hash;
                       OpCreateVindex "stub_hash" "idx1" (∅ : Params string);
                       OpRegister "stub_lookup" new_stub_lookup]) →
     example_registry
     = list_to_map (registrations [OpRegister "stub_hash" new_stub_hash;
                                   OpCreateVindex "stub_hash" "idx1" (∅ : Params string);
                                   OpRegister "stub_lookup" new_stub_lookup])
       ∪ initial_registry).
Proof.
  apply (completed_run_registers_once
           [OpRegister "stub_hash" new_stub_hash;
            OpCreateVindex "stub_hash" "idx1" ∅;
            OpRegister "stub_lookup" new_stub_lookup]
           initial_registry example_registry).
  vm_compute. reflexivity.
Defined.

Lemma registration_phase_witness :
  ∃ st,
    exec (register_all [("stub_hash", new_stub_hash); ("stub_lookup", new_stub_lookup)])
         initial_registry = Returned tt st
    ∧ st = list_to_map [("stub_hash", new_stub_hash); ("stub_lookup", new_stub_lookup)]
           ∪ initial_registry
    ∧ (∀ vindexType f name params,
         (vindexType, f) ∈ [("stub_hash", new_stub_hash); ("stub_lookup", new_stub_lookup)] →
         CreateVindex vindexType name params st = call f name params st)
    ∧ (∀ vindexType name params,
         vindexType ∉ [("stub_hash", new_stub_hash); ("stub_lookup", new_stub_lookup)].*1 →
         initial_registry (Value := string) !! vindexType = None →
         CreateVindex vindexType name params st
         = Returned (nil_Vindex, Errorf "vindexType %s not found" [vindexType]) st).
Proof.
  apply (registration_phase
           [("stub_hash", new_stub_hash); ("stub_lookup", new_stub_lookup)]
           initial_registry).
  - apply (bool_decide_unpack _). vm_compute. exact I.
  - intros vindexType _. reflexivity.
Defined.
